(** * Fixed-window rate limiter: [rateLimitMiddleware]

    Shallow embedding of
    [paystell-frontend/src/middleware/rateLimitMiddleware.ts].

    The middleware keeps one module-level [Map<string, RateLimitData>]
    whose values are JavaScript objects, that is references: [Map.get]
    hands out the stored object and the assignments [ipData.count = ...]
    mutate it in place.  The embedding therefore has an object heap and a
    map from keys to references, and the middleware is written in a small
    state monad over that store.

    Numbers: [Date.now()] is an integer number of milliseconds, [count] is
    an integer counter and the two parameters are integer quantities (a
    number of requests, a number of milliseconds), so [number] is modelled
    as [Z]: exact below 2^53, where doubles represent every integer and
    [Math.ceil (x / 1000)] is the integer ceiling. *)

From Stdlib Require Import ZArith Lia.
From stdpp Require Import base option functions gmap strings pretty.

Local Open Scope Z_scope.

(** ** Data *)

(** [interface RateLimitData { count: number; resetTime: number }] *)
Record RateLimitData := mkRateLimitData {
  count : Z;
  resetTime : Z
}.

(** [interface RateLimitErrorResponse { success: false; message: string }] *)
Record RateLimitErrorResponse := mkRateLimitErrorResponse {
  success : bool;
  message : string
}.

(** The value built by [NextResponse.json(body, { status, headers })]: the
    JSON body and the init object it is given.  [headers] is the object
    literal of the source; its own keys in insertion order. *)
Record NextResponse := mkNextResponse {
  body : RateLimitErrorResponse;
  status : Z;
  headers : list (string * string)
}.

(** The only field of [NextRequest] the middleware reads:
    [ip?: string]. *)
Record NextRequest := mkNextRequest {
  ip : option string
}.

(** ** Number primitives *)

(** [Math.ceil(x / d)] for an integer [x] and a positive integer [d]. *)
Definition Math_ceil_div (x d : Z) : Z := - ((- x) / d).

(** [n.toString()] for an integer [n]: decimal digits, with a leading
    minus sign for negative numbers. *)
Definition toString (n : Z) : string := pretty n.

(** ** The store: object heap and [ipRequestMap] *)

(** Object references. *)
Abbreviation ref := nat.

Record Store := mkStore {
  ipRequestMap : gmap string ref;   (* const ipRequestMap = new Map() *)
  heap : ref -> RateLimitData;      (* the objects, by reference *)
  next : ref                        (* next unused reference *)
}.

(** The store at module load: an empty map, nothing allocated. *)
Definition init : Store :=
  mkStore ∅ (fun _ => mkRateLimitData 0 0) 0%nat.

(** The entry a key denotes: the object its reference points to. *)
Definition entry (st : Store) (k : string) : option RateLimitData :=
  heap st <$> ipRequestMap st !! k.

(** ** A state monad over the store *)

Definition M (A : Type) : Type := Store -> A * Store.

#[global] Instance M_ret : MRet M := fun A a st => (a, st).
#[global] Instance M_bind : MBind M :=
  fun A B f m st => let '(a, st') := m st in f a st'.

(** [ipRequestMap.get(k)] *)
Definition Map_get (k : string) : M (option ref) :=
  fun st => (ipRequestMap st !! k, st).

(** [ipRequestMap.set(k, r)] *)
Definition Map_set (k : string) (r : ref) : M unit :=
  fun st => (tt, mkStore (<[k := r]> (ipRequestMap st)) (heap st) (next st)).

(** An object literal [{ count: c, resetTime: t }]: a fresh object. *)
Definition new_object (d : RateLimitData) : M ref :=
  fun st =>
    (next st, mkStore (ipRequestMap st) (<[next st := d]> (heap st)) (S (next st))).

(** [r.count] and [r.resetTime] *)
Definition get_count (r : ref) : M Z := fun st => (count (heap st r), st).
Definition get_resetTime (r : ref) : M Z := fun st => (resetTime (heap st r), st).

(** [r.count = v] and [r.resetTime = v] *)
Definition set_count (r : ref) (v : Z) : M unit :=
  fun st =>
    (tt, mkStore (ipRequestMap st)
           (<[r := mkRateLimitData v (resetTime (heap st r))]> (heap st))
           (next st)).
Definition set_resetTime (r : ref) (v : Z) : M unit :=
  fun st =>
    (tt, mkStore (ipRequestMap st)
           (<[r := mkRateLimitData (count (heap st r)) v]> (heap st))
           (next st)).

(** ** The middleware *)

(** [request.ip || 'unknown']: [undefined] and the empty string are falsy. *)
Definition client_key (request : NextRequest) : string :=
  match ip request with
  | Some s => if decide (s = "") then "unknown" else s
  | None => "unknown"
  end.

(** The 429 response of lines 58-77. *)
Definition too_many_requests (maxRequests resetTime_ now : Z) : NextResponse :=
  let secondsToReset := Math_ceil_div (resetTime_ - now) 1000 in
  let headers_ :=
    [ ("X-RateLimit-Limit", toString maxRequests);
      ("X-RateLimit-Remaining", "0");
      ("X-RateLimit-Reset", toString (Math_ceil_div resetTime_ 1000));
      ("Retry-After", toString secondsToReset) ] in
  mkNextResponse
    (mkRateLimitErrorResponse false
       ("Too many requests. Please try again in "
          +:+ toString secondsToReset +:+ " seconds."))
    429
    headers_.

(** [rateLimitMiddleware(request, maxRequests, windowMs)], with the value
    of [Date.now()] as the argument [now].  [None] is [undefined]. *)
Definition rateLimitMiddleware (request : NextRequest)
    (maxRequests windowMs : Z) (now : Z) : M (option NextResponse) :=
  let ip_ := client_key request in
  (* const ipData = ipRequestMap.get(ip) || { count: 0, resetTime: now + windowMs } *)
  found ← Map_get ip_;
  ipData ← match found with
            | Some r => mret r
            | None => new_object (mkRateLimitData 0 (now + windowMs))
            end;
  (* if (now > ipData.resetTime) { ... } *)
  rt ← get_resetTime ipData;
  (if decide (now > rt)
   then set_count ipData 0;; set_resetTime ipData (now + windowMs)
   else mret tt);;
  (* ipData.count += 1; ipRequestMap.set(ip, ipData) *)
  c ← get_count ipData;
  set_count ipData (c + 1);;
  Map_set ip_ ipData;;
  (* if (ipData.count > maxRequests) { ... return 429 } return undefined *)
  c' ← get_count ipData;
  if decide (c' > maxRequests)
  then
    rt' ← get_resetTime ipData;
    mret (Some (too_many_requests maxRequests rt' now))
  else mret None.

(** Default parameters of the source. *)
Definition default_maxRequests : Z := 5.
Definition default_windowMs : Z := 60 * 1000.

(** The two outcomes of a call: [undefined] lets the request through (the
    outcome the specification calls Admitted), a response with status 429
    turns it away (Rejected). *)
Definition Accepted (r : option NextResponse) : Prop := r = None.
Definition Rejected (r : option NextResponse) : Prop :=
  exists resp, r = Some resp /\ status resp = 429.

(** A header of a response, by name. *)
Definition header (name : string) (resp : NextResponse) : option string :=
  snd <$> List.find (fun h => bool_decide (fst h = name)) (headers resp).

(** ** Sequences of calls *)

(** The middleware invoked once per element of [calls], each a request
    and the clock value [Date.now()] returns during that call. *)
Fixpoint run (maxRequests windowMs : Z) (calls : list (NextRequest * Z))
    : M (list (option NextResponse)) :=
  match calls with
  | [] => mret []
  | (request, now) :: calls' =>
      r ← rateLimitMiddleware request maxRequests windowMs now;
      rs ← run maxRequests windowMs calls';
      mret (r :: rs)
  end.

(** Stores the program can be in: the initial one and those obtained from
    it by calls, with any arguments. *)
Inductive reachable : Store -> Prop :=
  | reachable_init : reachable init
  | reachable_call st request maxRequests windowMs now :
      reachable st ->
      reachable (rateLimitMiddleware request maxRequests windowMs now st).2.

(** ** What one call does to the entry of its key *)

(** The value of [ipData] read at line 45. *)
Definition observed (now windowMs : Z) (o : option RateLimitData) : RateLimitData :=
  default (mkRateLimitData 0 (now + windowMs)) o.

(** The value of [ipData] after lines 48-54. *)
Definition counted (now windowMs : Z) (o : option RateLimitData) : RateLimitData :=
  let d := observed now windowMs o in
  if decide (now > resetTime d)
  then mkRateLimitData (0 + 1) (now + windowMs)
  else mkRateLimitData (count d + 1) (resetTime d).

(** The reference [ipData] holds during a call for key [k]. *)
Definition ipData_ref (st : Store) (k : string) : ref :=
  default (next st) (ipRequestMap st !! k).

(** ** Stores without shared objects *)

(** Every stored reference is an allocated object, and no two keys hold
    the same one. *)
Definition wf (st : Store) : Prop :=
  (forall k r, ipRequestMap st !! k = Some r -> (r < next st)%nat)
  /\ (forall k1 k2 r,
        ipRequestMap st !! k1 = Some r -> ipRequestMap st !! k2 = Some r ->
        k1 = k2).

(** ** Windows *)

(** A call falls within the current window of its key when its clock value
    is not after the [resetTime] stored for the key. *)
Definition in_window (st : Store) (k : string) (now : Z) : bool :=
  match entry st k with
  | Some e => bool_decide (now <= resetTime e)
  | None => true
  end.

(** Every call of the sequence falls within the window current when it is
    made. *)
Fixpoint within_window (maxRequests windowMs : Z)
    (calls : list (NextRequest * Z)) (st : Store) : bool :=
  match calls with
  | [] => true
  | (request, now) :: calls' =>
      in_window st (client_key request) now
      && within_window maxRequests windowMs calls'
           (rateLimitMiddleware request maxRequests windowMs now st).2
  end.

(** A call begins a window for its key when it creates the entry (line 45)
    or takes the branch of line 48. *)
Definition begins_window (now : Z) (o : option RateLimitData) : bool :=
  match o with
  | Some e => bool_decide (now > resetTime e)
  | None => true
  end.

(** History variable: for each key, the clock value of the call that began
    its current window, recorded along a sequence of calls. *)
Fixpoint window_start (maxRequests windowMs : Z)
    (calls : list (NextRequest * Z)) (st : Store) (started : gmap string Z)
    : gmap string Z :=
  match calls with
  | [] => started
  | (request, now) :: calls' =>
      let k := client_key request in
      window_start maxRequests windowMs calls'
        (rateLimitMiddleware request maxRequests windowMs now st).2
        (if begins_window now (entry st k) then <[k := now]> started
         else started)
  end.

(** The invariant: counts are positive and every [resetTime] is
    [windowMs] past the recorded start of the window. *)
Definition entries_ok (windowMs : Z) (st : Store) (started : gmap string Z)
    : Prop :=
  forall k e, entry st k = Some e ->
    1 <= count e
    /\ exists t, started !! k = Some t /\ resetTime e = t + windowMs.

(** History variable for calls with any arguments: for each key, the
    clock value and the [windowMs] of the call that began its current
    window. *)
Definition record_start (request : NextRequest) (windowMs now : Z)
    (st : Store) (started : gmap string (Z * Z)) : gmap string (Z * Z) :=
  let k := client_key request in
  if begins_window now (entry st k) then <[k := (now, windowMs)]> started
  else started.

(** The stores the program can be in, each with the window starts recorded
    along the calls that led to it; every call passes its own
    [maxRequests] and [windowMs]. *)
Inductive history : Store -> gmap string (Z * Z) -> Prop :=
  | history_init : history init ∅
  | history_call st started request maxRequests windowMs now :
      history st started ->
      history (rateLimitMiddleware request maxRequests windowMs now st).2
        (record_start request windowMs now st started).

(** The invariant over a history: counts are positive and every
    [resetTime] is the recorded start of the window plus the [windowMs] of
    the call that started it. *)
Definition entries_started (st : Store) (started : gmap string (Z * Z))
    : Prop :=
  forall k e, entry st k = Some e ->
    1 <= count e
    /\ exists t w, started !! k = Some (t, w) /\ resetTime e = t + w.

(** ** Requests without an identifier *)

(** A request from which no client identifier can be read: [request.ip]
    is [undefined] or empty. *)
Definition unidentified (request : NextRequest) : Prop :=
  ip request = None \/ ip request = Some "".

(** ** The scenario of the specification *)

(** A request whose [ip] is [s]. *)
Definition req (s : string) : NextRequest := mkNextRequest (Some s).

Definition client : NextRequest := req "1.2.3.4".

(** The store after five calls at clock value 1000 with the default
    parameters. *)
Definition five_calls : Store :=
  (run default_maxRequests default_windowMs (repeat (client, 1000) 5) init).2.

(** The response to the sixth call, at clock value 1500. *)
Definition sixth_response : NextResponse :=
  mkNextResponse
    (mkRateLimitErrorResponse false
       "Too many requests. Please try again in 60 seconds.")
    429
    [ ("X-RateLimit-Limit", "5"); ("X-RateLimit-Remaining", "0");
      ("X-RateLimit-Reset", "61"); ("Retry-After", "60") ].

(** The store after five calls of one client and two of another. *)
Definition two_clients : Store :=
  (run 5 60000 [(req "5.6.7.8", 2000); (req "5.6.7.8", 2500)] five_calls).2.

(** A client served first with a window of a minute, then, within that
    window, with a window of a second. *)
Definition mixed_windows : Store :=
  (rateLimitMiddleware client 5 1000 2000
     (rateLimitMiddleware client 5 60000 1000 init).2).2.

(** The window starts recorded along those two calls. *)
Definition mixed_windows_started : gmap string (Z * Z) :=
  record_start client 1000 2000 (rateLimitMiddleware client 5 60000 1000 init).2
    (record_start client 60000 1000 init ∅).

(** The store after one call with [maxRequests = 0], a limit under which
    every call is rejected. *)
Definition always_rejecting : Store := (run 0 60000 [(client, 1000)] init).2.

(** ** The registry, histories and clocks *)

(** The map of entries the store denotes: every key with the fields of its
    object. *)
Definition registry (st : Store) : gmap string RateLimitData :=
  heap st <$> ipRequestMap st.

(** The calls of a sequence made for the client [k]. *)
Definition calls_of (k : string) (calls : list (NextRequest * Z))
    : list (NextRequest * Z) :=
  filter (fun call => client_key call.1 = k) calls.

(** The results of a sequence that answer the calls made for [k]. *)
Definition results_of (k : string) (calls : list (NextRequest * Z))
    (results : list (option NextResponse)) : list (option NextResponse) :=
  (filter (fun p => client_key p.1.1 = k) (zip calls results)).*2.

(** The keys the calls of a sequence are served under. *)
Definition keys_of (calls : list (NextRequest * Z)) : gset string :=
  list_to_set ((fun call => client_key call.1) <$> calls).

(** [accepted r] holds of [undefined]. *)
Definition accepted (r : option NextResponse) : bool :=
  match r with
  | None => true
  | Some _ => false
  end.

(** How many calls of a sequence were let through. *)
Definition accepted_count (results : list (option NextResponse)) : nat :=
  length (List.filter accepted results).

(** A clock that never runs backwards: every [Date.now()] of the sequence
    is at least the one before, the first at least [T]. *)
Fixpoint clock_monotone (T : Z) (calls : list (NextRequest * Z)) : bool :=
  match calls with
  | [] => true
  | (_, now) :: calls' => bool_decide (T <= now) && clock_monotone now calls'
  end.

(** No entry of the store expires later than [windowMs] after [T]. *)
Definition expires_by (T windowMs : Z) (st : Store) : Prop :=
  forall k e, entry st k = Some e -> resetTime e <= T + windowMs.

(** A burst across the end of a window: one call at [t0], which opens the
    window, [n - 1] calls in its last millisecond and [n] calls one
    millisecond later. *)
Definition boundary_burst (request : NextRequest) (t0 windowMs : Z) (n : nat)
    : list (NextRequest * Z) :=
  (request, t0) :: repeat (request, t0 + windowMs) (n - 1)
    ++ repeat (request, t0 + windowMs + 1) n.

(** * Properties *)

(** ** One call, in terms of the entry of its key *)

(** Closes the four facts of [rateLimitMiddleware_spec] once the branches
    of the call are fixed: reads of the object just written, and reads of
    the other objects. *)
Local Ltac close_branch :=
  case_decide; simpl;
  repeat split; try rewrite !fn_lookup_insert; try done;
  (intros r'; case_decide; subst;
   [by rewrite fn_lookup_insert | by rewrite !fn_lookup_insert_ne]).

(** The call as a function of the store: its result, the map, the heap
    and the allocation pointer afterwards. *)
Lemma rateLimitMiddleware_spec request maxRequests windowMs now st :
  let k := client_key request in
  let r := ipData_ref st k in
  let d := counted now windowMs (entry st k) in
  let out := rateLimitMiddleware request maxRequests windowMs now st in
  out.1 = (if decide (count d > maxRequests)
           then Some (too_many_requests maxRequests (resetTime d) now)
           else None)
  /\ ipRequestMap out.2 = <[k := r]> (ipRequestMap st)
  /\ (forall r', heap out.2 r' = if decide (r' = r) then d else heap st r')
  /\ next out.2 = match ipRequestMap st !! k with
                  | Some _ => next st
                  | None => S (next st)
                  end.
Proof.
  unfold rateLimitMiddleware, counted, observed, entry, ipData_ref.
  unfold mbind, M_bind, mret, M_ret, Map_get, Map_set, new_object,
    get_count, get_resetTime, set_count, set_resetTime.
  simpl.
  destruct (ipRequestMap st !! client_key request) as [r|] eqn:Hk; simpl.
  - destruct (decide (now > resetTime (heap st r))); simpl;
      rewrite !fn_lookup_insert; simpl; close_branch.
  - rewrite !fn_lookup_insert; simpl.
    destruct (decide (now > now + windowMs)); simpl;
      rewrite !fn_lookup_insert; simpl; close_branch.
Qed.

(** After a call the key of the request denotes the counted entry. *)
Lemma entry_after_call request maxRequests windowMs now st :
  entry (rateLimitMiddleware request maxRequests windowMs now st).2
        (client_key request)
  = Some (counted now windowMs (entry st (client_key request))).
Proof.
  destruct (rateLimitMiddleware_spec request maxRequests windowMs now st)
    as (_ & Hmap & Hheap & _).
  unfold entry at 1. rewrite Hmap, lookup_insert_eq. simpl.
  rewrite Hheap. by rewrite decide_True.
Qed.

(** The value a call returns is decided by the counted entry alone. *)
Lemma result_of_call request maxRequests windowMs now st :
  let d := counted now windowMs (entry st (client_key request)) in
  (rateLimitMiddleware request maxRequests windowMs now st).1
  = if decide (count d > maxRequests)
    then Some (too_many_requests maxRequests (resetTime d) now)
    else None.
Proof. apply rateLimitMiddleware_spec. Qed.

(** ** No object is shared between two keys *)

Lemma wf_init : wf init.
Proof. split; intros *; simpl; by rewrite lookup_empty. Qed.

Lemma wf_call request maxRequests windowMs now st :
  wf st -> wf (rateLimitMiddleware request maxRequests windowMs now st).2.
Proof.
  intros [Halloc Hinj].
  destruct (rateLimitMiddleware_spec request maxRequests windowMs now st)
    as (_ & Hmap & _ & Hnext).
  set (k := client_key request) in *.
  unfold ipData_ref in Hmap.
  split.
  - intros k' r'. rewrite Hmap, Hnext, lookup_insert.
    case_decide as Hkk; [intros [= <-]|intros Hk'].
    + destruct (ipRequestMap st !! k) as [r|] eqn:Hk; simpl; [eauto|lia].
    + apply Halloc in Hk'. destruct (ipRequestMap st !! k); lia.
  - intros k1 k2 r'. rewrite Hmap, !lookup_insert.
    destruct (ipRequestMap st !! k) as [r|] eqn:Hk; simpl;
      repeat case_decide; subst; try done.
    + intros [= <-] H2. eauto.
    + intros H1 [= <-]. eauto.
    + eauto.
    + intros [= <-] H2. apply Halloc in H2. lia.
    + intros H1 [= <-]. apply Halloc in H1. lia.
    + eauto.
Qed.

Lemma reachable_wf st : reachable st -> wf st.
Proof. induction 1; [apply wf_init|by apply wf_call]. Qed.

(** In a well-formed store a call leaves every other key as it was: the
    same reference, pointing to an object with the same fields. *)
Lemma call_frame request maxRequests windowMs now st k' :
  wf st -> client_key request ≠ k' ->
  let st' := (rateLimitMiddleware request maxRequests windowMs now st).2 in
  ipRequestMap st' !! k' = ipRequestMap st !! k'
  /\ entry st' k' = entry st k'.
Proof.
  intros [Halloc Hinj] Hne.
  destruct (rateLimitMiddleware_spec request maxRequests windowMs now st)
    as (_ & Hmap & Hheap & _).
  simpl. unfold entry. rewrite Hmap, lookup_insert_ne by done.
  split; [done|].
  destruct (ipRequestMap st !! k') as [r'|] eqn:Hk'; simpl; [|done].
  rewrite Hheap. rewrite decide_False; [done|].
  unfold ipData_ref. intros ->.
  destruct (ipRequestMap st !! client_key request) as [r|] eqn:Hk; simpl in *.
  - apply Hne. eauto.
  - apply Halloc in Hk'. lia.
Qed.

(** ** Arithmetic of the response *)

(** [Math_ceil_div x d] is the least integer not below [x / d]. *)
Lemma Math_ceil_div_spec x d :
  0 < d ->
  d * (Math_ceil_div x d - 1) < x <= d * Math_ceil_div x d.
Proof.
  intros Hd. unfold Math_ceil_div.
  pose proof (Z.div_mod (- x) d ltac:(lia)) as Hdm.
  pose proof (Z.mod_pos_bound (- x) d Hd) as Hb.
  nia.
Qed.

Lemma Math_ceil_div_nonneg x d : 0 < d -> 0 <= x -> 0 <= Math_ceil_div x d.
Proof.
  intros Hd Hx. pose proof (Math_ceil_div_spec x d Hd). nia.
Qed.

(** ** Sequences of calls, unfolded *)

Lemma run_cons maxRequests windowMs request now calls st :
  let out := rateLimitMiddleware request maxRequests windowMs now st in
  let rest := run maxRequests windowMs calls out.2 in
  run maxRequests windowMs ((request, now) :: calls) st
  = (out.1 :: rest.1, rest.2).
Proof.
  simpl. unfold mbind, M_bind, mret, M_ret.
  destruct (rateLimitMiddleware _ _ _ _ _) as [r st1]. simpl.
  by destruct (run _ _ _ _) as [rs st2].
Qed.

Lemma reachable_run maxRequests windowMs calls st :
  reachable st -> reachable (run maxRequests windowMs calls st).2.
Proof.
  revert st. induction calls as [|[request now] calls IH]; intros st Hst.
  - done.
  - rewrite run_cons. simpl. apply IH. by constructor.
Qed.

(** The counter never exceeds the number of calls counted so far: a reset
    only lowers it. *)
Lemma counted_le now windowMs o c :
  0 <= c ->
  (forall e, o = Some e -> count e <= c) ->
  count (counted now windowMs o) <= c + 1.
Proof.
  intros Hc Ho. unfold counted, observed.
  destruct o as [e|]; simpl; case_decide; simpl; try lia.
  specialize (Ho e eq_refl). lia.
Qed.

Lemma run_accepted k maxRequests windowMs calls : forall st c,
  Forall (fun call => client_key call.1 = k) calls ->
  0 <= c ->
  (forall e, entry st k = Some e -> count e <= c) ->
  c + Z.of_nat (length calls) <= maxRequests ->
  Forall Accepted (run maxRequests windowMs calls st).1.
Proof.
  induction calls as [|[request now] calls IH]; intros st c Hk Hc Hst Hlen.
  - constructor.
  - apply Forall_cons in Hk as [Hk1 Hk]. simpl in Hk1, Hlen.
    rewrite run_cons. simpl.
    pose proof (counted_le now windowMs (entry st k) c Hc Hst) as Hle.
    constructor.
    + unfold Accepted. rewrite result_of_call, Hk1.
      rewrite decide_False; [done|lia].
    + apply (IH _ (c + 1)); [done|lia| |lia].
      intros e. rewrite <- Hk1 at 1. rewrite entry_after_call, Hk1.
      by intros [= <-].
Qed.

(** Within a window every call adds one to the stored counter and keeps
    [resetTime]. *)
Lemma counted_in_window now windowMs e :
  now <= resetTime e ->
  counted now windowMs (Some e) = mkRateLimitData (count e + 1) (resetTime e).
Proof.
  intros Hw. unfold counted, observed. simpl. rewrite decide_False; [done|lia].
Qed.

Lemma run_in_window k maxRequests windowMs calls : forall st e,
  Forall (fun call => client_key call.1 = k) calls ->
  entry st k = Some e ->
  within_window maxRequests windowMs calls st = true ->
  entry (run maxRequests windowMs calls st).2 k
  = Some (mkRateLimitData (count e + Z.of_nat (length calls)) (resetTime e)).
Proof.
  induction calls as [|[request now] calls IH]; intros st e Hk He Hw.
  - simpl. rewrite He. destruct e. simpl. do 2 f_equal. lia.
  - apply Forall_cons in Hk as [Hk1 Hk]. simpl in Hk1.
    simpl in Hw. apply andb_prop in Hw as [Hw1 Hw].
    unfold in_window in Hw1. rewrite Hk1, He in Hw1.
    apply bool_decide_eq_true in Hw1.
    rewrite run_cons. simpl.
    erewrite IH; [| done | | done].
    2:{ rewrite <- Hk1 at 1. rewrite entry_after_call, Hk1, He.
        by rewrite counted_in_window. }
    simpl. do 2 f_equal. lia.
Qed.

Lemma run_length maxRequests windowMs calls : forall st,
  length (run maxRequests windowMs calls st).1 = length calls.
Proof.
  induction calls as [|[request now] calls IH]; intros st; [done|].
  rewrite run_cons. simpl. by rewrite IH.
Qed.

(** Whatever the entry was, the counted entry expires no earlier than the
    call, for a window of non-negative length. *)
Lemma counted_resetTime_ge now windowMs o :
  0 <= windowMs -> now <= resetTime (counted now windowMs o).
Proof.
  intros Hw. unfold counted, observed.
  destruct o as [e|]; simpl; case_decide; simpl; lia.
Qed.

(** A call that starts from a reset or absent entry counts from zero. *)
Lemma counted_reset now windowMs e :
  now > resetTime e ->
  counted now windowMs (Some e) = mkRateLimitData (0 + 1) (now + windowMs).
Proof. intros Hw. unfold counted, observed. simpl. by rewrite decide_True. Qed.

Lemma counted_fresh now windowMs :
  counted now windowMs None = mkRateLimitData (0 + 1) (now + windowMs)
  /\ counted now windowMs (Some (mkRateLimitData 0 (now + windowMs)))
     = mkRateLimitData (0 + 1) (now + windowMs).
Proof. unfold counted, observed. simpl. by case_decide. Qed.

(** ** The scenario of the specification *)

Example five_calls_entry :
  entry five_calls "1.2.3.4" = Some (mkRateLimitData 5 61000).
Proof. reflexivity. Qed.

Example five_calls_accepted :
  (run default_maxRequests default_windowMs (repeat (client, 1000) 5) init).1
  = [None; None; None; None; None].
Proof. reflexivity. Qed.

Example sixth_call_rejected :
  (rateLimitMiddleware client default_maxRequests default_windowMs 1500
     five_calls).1 = Some sixth_response.
Proof. reflexivity. Qed.

Example call_after_window :
  let out := rateLimitMiddleware client default_maxRequests default_windowMs
               61500 five_calls in
  out.1 = None /\ entry out.2 "1.2.3.4" = Some (mkRateLimitData 1 121500).
Proof. split; reflexivity. Qed.

Example toString_examples :
  toString 0 = "0" /\ toString 60 = "60" /\ toString (-3) = "-3".
Proof. repeat split. Qed.

Example Math_ceil_div_examples :
  Math_ceil_div 59500 1000 = 60 /\ Math_ceil_div 61000 1000 = 61
  /\ Math_ceil_div 0 1000 = 0 /\ Math_ceil_div (-500) 1000 = 0.
Proof. repeat split. Qed.

(** ** Quota within one window *)

(** C1.  Starting from a store in which the client has no entry (or an
    entry that has just been reset, its count still 0), a sequence of at
    most [maxRequests] calls for that client, each made within the window
    current at the time, is admitted call by call. *)
Theorem C1_within_quota_accepted k maxRequests windowMs calls st :
  Forall (fun call => client_key call.1 = k) calls ->
  (entry st k = None \/ exists e, entry st k = Some e /\ count e = 0) ->
  Z.of_nat (length calls) <= maxRequests ->
  within_window maxRequests windowMs calls st = true ->
  let results := (run maxRequests windowMs calls st).1 in
  length results = length calls /\ Forall Accepted results.
Proof.
  intros Hk Hst Hlen _. split; [apply run_length|].
  apply (run_accepted k _ _ _ _ 0); [done|lia| |lia].
  intros e He. destruct Hst as [Hn|(e0 & He0 & Hc)]; [congruence|].
  rewrite He in He0. injection He0 as ->. lia.
Qed.

Lemma C1_within_quota_accepted_witness :
  let calls := repeat (client, 1000) 5 in
  let results := (run 5 60000 calls init).1 in
  length results = length calls /\ Forall Accepted results.
Proof.
  apply (C1_within_quota_accepted "1.2.3.4").
  - repeat constructor.
  - left. reflexivity.
  - simpl. lia.
  - reflexivity.
Defined.

(** C2.  When the stored count of a client equals [maxRequests] and the
    window has not elapsed, the next call for that client within the window
    ([now <= resetTime]) is rejected with status 429. *)
Theorem C2_next_call_rejected request maxRequests windowMs now st e :
  entry st (client_key request) = Some e ->
  count e = maxRequests ->
  now <= resetTime e ->
  Rejected (rateLimitMiddleware request maxRequests windowMs now st).1.
Proof.
  intros He Hc Hw. unfold Rejected.
  rewrite result_of_call, He, counted_in_window by done. simpl.
  rewrite decide_True by lia. eauto.
Qed.

Lemma C2_next_call_rejected_witness :
  entry five_calls (client_key client) = Some (mkRateLimitData 5 61000)
  /\ Rejected (rateLimitMiddleware client 5 60000 1500 five_calls).1.
Proof.
  split; [reflexivity|].
  apply (C2_next_call_rejected client 5 60000 1500 five_calls
           (mkRateLimitData 5 61000)); [reflexivity|reflexivity|simpl; lia].
Defined.



(** C4.  The comparison of line 48 is strict: a call arriving exactly at
    [resetTime] does not reset the entry; it is counted on top of the old
    count, keeps [resetTime], and is rejected or admitted by that count. *)
Theorem C4_reset_is_strict request maxRequests windowMs now st e :
  entry st (client_key request) = Some e ->
  now = resetTime e ->
  let out := rateLimitMiddleware request maxRequests windowMs now st in
  entry out.2 (client_key request)
  = Some (mkRateLimitData (count e + 1) (resetTime e))
  /\ (count e + 1 > maxRequests -> Rejected out.1)
  /\ (count e + 1 <= maxRequests -> Accepted out.1).
Proof.
  intros He Hnow. simpl.
  rewrite entry_after_call, result_of_call, He, counted_in_window by lia.
  simpl. split; [done|]. unfold Rejected, Accepted.
  split; intros Hc; case_decide; try lia; eauto.
Qed.

Lemma C4_reset_is_strict_witness :
  let out := rateLimitMiddleware client 5 60000 61000 five_calls in
  entry out.2 "1.2.3.4" = Some (mkRateLimitData 6 61000) /\ Rejected out.1.
Proof.
  destruct (C4_reset_is_strict client 5 60000 61000 five_calls
              (mkRateLimitData 5 61000)) as (H1 & H2 & _);
    [reflexivity|reflexivity|].
  split; [exact H1|apply H2; simpl; lia].
Defined.

(** ** The rejection response *)

(** A response is returned only by line 68, built from the entry as
    stored by the call. *)
Lemma response_of_call request maxRequests windowMs now st resp :
  let out := rateLimitMiddleware request maxRequests windowMs now st in
  out.1 = Some resp ->
  exists e', entry out.2 (client_key request) = Some e'
    /\ e' = counted now windowMs (entry st (client_key request))
    /\ count e' > maxRequests
    /\ resp = too_many_requests maxRequests (resetTime e') now.
Proof.
  simpl. rewrite entry_after_call, result_of_call.
  case_decide; [|done]. intros [= <-]. eauto.
Qed.

(** C5.  The [Retry-After] header of a rejection is the decimal string of
    [N = ceil((resetTime - now) / 1000)], with [resetTime] read from the
    entry as the call stored it; [N] is the least integer with
    [resetTime - now <= 1000 * N], and for [windowMs > 0] it is not
    negative, in every store. *)
Theorem C5_retry_after request maxRequests windowMs now st resp :
  let out := rateLimitMiddleware request maxRequests windowMs now st in
  out.1 = Some resp ->
  exists e' N,
    entry out.2 (client_key request) = Some e'
    /\ N = Math_ceil_div (resetTime e' - now) 1000
    /\ 1000 * (N - 1) < resetTime e' - now <= 1000 * N
    /\ header "Retry-After" resp = Some (toString N)
    /\ (0 < windowMs -> 0 <= N).
Proof.
  intros out Hout.
  destruct (response_of_call _ _ _ _ _ _ Hout) as (e' & He' & Hc & _ & ->).
  exists e', (Math_ceil_div (resetTime e' - now) 1000).
  split; [done|]. split; [done|].
  split; [apply Math_ceil_div_spec; lia|].
  split; [done|].
  intros Hw. apply Math_ceil_div_nonneg; [lia|].
  pose proof (counted_resetTime_ge now windowMs
                (entry st (client_key request)) ltac:(lia)).
  subst e'. lia.
Qed.

Lemma C5_retry_after_witness :
  let out := rateLimitMiddleware client 5 60000 1500 five_calls in
  out.1 = Some sixth_response
  /\ header "Retry-After" sixth_response = Some "60"
  /\ exists e' N,
       entry out.2 (client_key client) = Some e'
       /\ N = Math_ceil_div (resetTime e' - 1500) 1000
       /\ 1000 * (N - 1) < resetTime e' - 1500 <= 1000 * N
       /\ header "Retry-After" sixth_response = Some (toString N)
       /\ (0 < 60000 -> 0 <= N).
Proof.
  split; [reflexivity|]. split; [reflexivity|].
  apply (C5_retry_after client 5 60000 1500 five_calls sixth_response).
  reflexivity.
Defined.

(** C6.  Every response the middleware returns has status 429, exactly the
    four headers [X-RateLimit-Limit] ([maxRequests] as a string),
    [X-RateLimit-Remaining] (["0"]), [X-RateLimit-Reset]
    ([ceil(resetTime / 1000)]) and [Retry-After]
    ([N = ceil((resetTime - now) / 1000)]), and the body
    [{success: false, message: "Too many requests. Please try again in N
    seconds."}]. *)
Theorem C6_rejection_response request maxRequests windowMs now st resp :
  let out := rateLimitMiddleware request maxRequests windowMs now st in
  out.1 = Some resp ->
  exists e',
    entry out.2 (client_key request) = Some e'
    /\ let N := Math_ceil_div (resetTime e' - now) 1000 in
       status resp = 429
       /\ headers resp =
            [ ("X-RateLimit-Limit", toString maxRequests);
              ("X-RateLimit-Remaining", "0");
              ("X-RateLimit-Reset", toString (Math_ceil_div (resetTime e') 1000));
              ("Retry-After", toString N) ]
       /\ body resp =
            mkRateLimitErrorResponse false
              ("Too many requests. Please try again in "
                 +:+ toString N +:+ " seconds.").
Proof.
  intros out Hout.
  destruct (response_of_call _ _ _ _ _ _ Hout) as (e' & He' & _ & _ & ->).
  exists e'. by split.
Qed.

Lemma C6_rejection_response_witness :
  let out := rateLimitMiddleware client 5 60000 1500 five_calls in
  out.1 = Some sixth_response
  /\ exists e',
       entry out.2 (client_key client) = Some e'
       /\ let N := Math_ceil_div (resetTime e' - 1500) 1000 in
          status sixth_response = 429
          /\ headers sixth_response =
               [ ("X-RateLimit-Limit", toString 5);
                 ("X-RateLimit-Remaining", "0");
                 ("X-RateLimit-Reset",
                   toString (Math_ceil_div (resetTime e') 1000));
                 ("Retry-After", toString N) ]
          /\ body sixth_response =
               mkRateLimitErrorResponse false
                 ("Too many requests. Please try again in "
                    +:+ toString N +:+ " seconds.").
Proof.
  split; [reflexivity|].
  apply (C6_rejection_response client 5 60000 1500 five_calls sixth_response).
  reflexivity.
Defined.

(** ** Independence of clients *)

(** C7.  In every store the program can reach, a call for one client
    leaves the entry of every other client as it was (the same count and
    [resetTime], or still absent); and what the call returns and stores for
    its own client is determined by the entry of that client alone. *)
Theorem C7_clients_independent request maxRequests windowMs now st b :
  reachable st ->
  client_key request ≠ b ->
  let a := client_key request in
  let out := rateLimitMiddleware request maxRequests windowMs now st in
  entry out.2 b = entry st b
  /\ ipRequestMap out.2 !! b = ipRequestMap st !! b
  /\ forall st0,
       entry st0 a = entry st a ->
       let out0 := rateLimitMiddleware request maxRequests windowMs now st0 in
       out0.1 = out.1 /\ entry out0.2 a = entry out.2 a.
Proof.
  intros Hst Hne. simpl.
  destruct (call_frame request maxRequests windowMs now st b) as [Hmap Hentry];
    [by apply reachable_wf|done|].
  split; [done|]. split; [done|].
  intros st0 Hst0. by rewrite !entry_after_call, !result_of_call, Hst0.
Qed.

Lemma C7_clients_independent_witness :
  let out := rateLimitMiddleware client 5 60000 3000 two_clients in
  entry two_clients "5.6.7.8" = Some (mkRateLimitData 2 62000)
  /\ entry out.2 "5.6.7.8" = entry two_clients "5.6.7.8".
Proof.
  split; [reflexivity|].
  apply (C7_clients_independent client 5 60000 3000 two_clients "5.6.7.8").
  - unfold two_clients, five_calls.
    apply reachable_run, reachable_run, reachable_init.
  - discriminate.
Defined.

(** The frame property rests on reachability: were one object stored
    under two keys, a call for one key would count for the other too. *)
Example shared_object_breaks_frame :
  let st := mkStore {[ "a" := 0%nat; "b" := 0%nat ]}
              (fun _ => mkRateLimitData 1 61000) 1%nat in
  let out := rateLimitMiddleware (req "a") 5 60000 1000 st in
  entry st "b" = Some (mkRateLimitData 1 61000)
  /\ entry out.2 "b" = Some (mkRateLimitData 2 61000).
Proof. split; reflexivity. Qed.

(** ** Invariants of the entries *)

Lemma entries_ok_call request maxRequests windowMs now st started :
  wf st ->
  entries_ok windowMs st started ->
  let k := client_key request in
  entries_ok windowMs
    (rateLimitMiddleware request maxRequests windowMs now st).2
    (if begins_window now (entry st k) then <[k := now]> started else started).
Proof.
  intros Hwf Hok k k' e'.
  destruct (decide (k = k')) as [<-|Hne].
  - subst k. rewrite entry_after_call. intros [= <-].
    unfold counted, observed, begins_window.
    destruct (entry st (client_key request)) as [e|] eqn:He; simpl.
    + destruct (Hok _ _ He) as (Hc & t & Ht & Hrt).
      rewrite (bool_decide_decide (now > resetTime e)).
      case_decide; simpl.
      * split; [lia|]. exists now. by rewrite lookup_insert_eq.
      * split; [lia|]. eauto.
    + rewrite lookup_insert_eq.
      case_decide; simpl; (split; [lia|eauto]).
  - destruct (call_frame request maxRequests windowMs now st k' Hwf Hne)
      as [_ ->].
    intros He'. destruct (Hok _ _ He') as (Hc & t & Ht & Hrt).
    split; [done|]. exists t. split; [|done].
    destruct (begins_window _ _); [by rewrite lookup_insert_ne|done].
Qed.

Lemma entries_ok_run maxRequests windowMs calls : forall st started,
  wf st ->
  entries_ok windowMs st started ->
  entries_ok windowMs (run maxRequests windowMs calls st).2
    (window_start maxRequests windowMs calls st started).
Proof.
  induction calls as [|[request now] calls IH]; intros st started Hwf Hok.
  - done.
  - rewrite run_cons. simpl. apply IH; [by apply wf_call|].
    by apply entries_ok_call.
Qed.

(** Counts in a reachable store are positive. *)
Lemma reachable_count st k e :
  reachable st -> entry st k = Some e -> 1 <= count e.
Proof.
  intros Hst. revert k e.
  induction Hst as [|st request maxRequests windowMs now Hst IH]; intros k e.
  - unfold entry. simpl. by rewrite lookup_empty.
  - destruct (decide (client_key request = k)) as [<-|Hne].
    + rewrite entry_after_call. intros [= <-].
      unfold counted, observed.
      destruct (entry st (client_key request)) as [e|] eqn:He; simpl;
        case_decide; simpl; try lia.
      specialize (IH _ _ He). lia.
    + destruct (call_frame request maxRequests windowMs now st k) as [_ ->];
        [by apply reachable_wf|done|]. apply IH.
Qed.

(** For sequences of calls that all pass the same [windowMs], every
    [resetTime] is the recorded start of the window plus that
    [windowMs]. *)
Corollary run_entry_invariants maxRequests windowMs calls :
  let st := (run maxRequests windowMs calls init).2 in
  let started := window_start maxRequests windowMs calls init ∅ in
  forall k e, entry st k = Some e ->
    0 <= count e
    /\ exists t, started !! k = Some t /\ resetTime e = t + windowMs.
Proof.
  simpl. intros k e He.
  destruct (entries_ok_run maxRequests windowMs calls init ∅ wf_init) with k e
    as (Hc & Ht); [|done|].
  - intros k0 e0. unfold entry. simpl. by rewrite lookup_empty.
  - split; [lia|done].
Qed.

Lemma history_reachable st started : history st started -> reachable st.
Proof. induction 1; by constructor. Qed.

Lemma reachable_history st : reachable st -> exists started, history st started.
Proof.
  induction 1 as [|st request maxRequests windowMs now _ [started IH]].
  - exists ∅. constructor.
  - eexists. by constructor.
Qed.

Lemma history_entries st started :
  history st started -> entries_started st started.
Proof.
  induction 1 as [|st started request maxRequests windowMs now Hst IH].
  - intros k e. unfold entry. simpl. by rewrite lookup_empty.
  - intros k' e'. unfold record_start.
    destruct (decide (client_key request = k')) as [<-|Hne].
    + rewrite entry_after_call. intros [= <-].
      unfold counted, observed, begins_window.
      destruct (entry st (client_key request)) as [e|] eqn:He; simpl.
      * destruct (IH _ _ He) as (Hc & t & w & Ht & Hrt).
        rewrite (bool_decide_decide (now > resetTime e)).
        case_decide; simpl.
        -- split; [lia|]. exists now, windowMs. by rewrite lookup_insert_eq.
        -- split; [lia|]. eauto.
      * rewrite lookup_insert_eq.
        case_decide; simpl; (split; [lia|eauto]).
    + destruct (call_frame request maxRequests windowMs now st k') as [_ ->];
        [by eapply reachable_wf, history_reachable|done|].
      intros He'. destruct (IH _ _ He') as (Hc & t & w & Ht & Hrt).
      split; [done|]. exists t, w. split; [|done].
      destruct (begins_window _ _); [by rewrite lookup_insert_ne|done].
Qed.

(** C8.  Every reachable store has a history, and under every history of
    it each entry has [count >= 0] and a [resetTime] equal to the clock
    value at which its window was last started (creation or reset) plus
    the [windowMs] passed by the call that started it; every call, with
    whatever arguments, leads to a store of which this holds again; and a
    call for a client without an entry proceeds as on the entry
    [{count: 0, resetTime: now + windowMs}]. *)
Theorem C8_entry_invariants st :
  reachable st ->
  (exists started, history st started)
  /\ (forall started, history st started ->
       (forall k e, entry st k = Some e ->
          0 <= count e
          /\ exists t w, started !! k = Some (t, w) /\ resetTime e = t + w)
       /\ forall request maxRequests windowMs now k e,
            entry (rateLimitMiddleware request maxRequests windowMs now st).2 k
            = Some e ->
            0 <= count e
            /\ exists t w,
                 record_start request windowMs now st started !! k = Some (t, w)
                 /\ resetTime e = t + w)
  /\ (forall request maxRequests windowMs now,
        let k := client_key request in
        let out := rateLimitMiddleware request maxRequests windowMs now st in
        entry st k = None ->
        entry out.2 k = Some (mkRateLimitData (0 + 1) (now + windowMs))
        /\ forall st0,
             entry st0 k = Some (mkRateLimitData 0 (now + windowMs)) ->
             let out0 :=
               rateLimitMiddleware request maxRequests windowMs now st0 in
             out0.1 = out.1 /\ entry out0.2 k = entry out.2 k).
Proof.
  intros Hst. split; [by apply reachable_history|]. split.
  - intros started Hh. split.
    + intros k e He. destruct (history_entries _ _ Hh _ _ He) as [Hc Ht].
      split; [lia|done].
    + intros request maxRequests windowMs now k e He.
      destruct (history_entries _ _
                  (history_call _ _ request maxRequests windowMs now Hh)
                  _ _ He) as [Hc Ht].
      split; [lia|done].
  - intros request maxRequests windowMs now. simpl. intros Hnone.
    destruct (counted_fresh now windowMs) as [Hfresh Hzero].
    rewrite entry_after_call, Hnone, Hfresh. split; [done|].
    intros st0 Hst0.
    by rewrite entry_after_call, !result_of_call, Hst0, Hnone, Hzero, Hfresh.
Qed.

Lemma C8_entry_invariants_witness :
  reachable mixed_windows
  /\ history mixed_windows mixed_windows_started
  /\ entry mixed_windows "1.2.3.4" = Some (mkRateLimitData 2 61000)
  /\ mixed_windows_started !! "1.2.3.4" = Some (1000, 60000)
  /\ (0 <= count (mkRateLimitData 2 61000)
      /\ exists t w,
           mixed_windows_started !! "1.2.3.4" = Some (t, w)
           /\ resetTime (mkRateLimitData 2 61000) = t + w).
Proof.
  assert (Hh : history mixed_windows mixed_windows_started)
    by apply history_call, history_call, history_init.
  assert (Hreach : reachable mixed_windows)
    by apply reachable_call, reachable_call, reachable_init.
  split; [exact Hreach|]. split; [exact Hh|].
  split; [reflexivity|]. split; [reflexivity|].
  destruct (C8_entry_invariants mixed_windows Hreach) as (_ & Hinv & _).
  destruct (Hinv _ Hh) as [Hentries _].
  apply Hentries. reflexivity.
Defined.

Example C8_scenario :
  let calls := repeat (client, 1000) 5 ++ [(client, 1500); (client, 61500)] in
  entry (run 5 60000 calls init).2 "1.2.3.4" = Some (mkRateLimitData 1 121500)
  /\ window_start 5 60000 calls init ∅ !! "1.2.3.4" = Some 61500.
Proof. split; reflexivity. Qed.

(** ** Totality and the shared ["unknown"] entry *)

(** C9.  Every call returns, and what it returns is either [undefined]
    (admitted) or a 429 response (rejected), never both; a request without
    an identifier is served under the key ["unknown"], so a second such
    request finds and updates the entry the first one stored. *)
Theorem C9_total_unknown_shared request maxRequests windowMs now st :
  let out := rateLimitMiddleware request maxRequests windowMs now st in
  (Accepted out.1 \/ Rejected out.1)
  /\ ~ (Accepted out.1 /\ Rejected out.1)
  /\ (unidentified request -> client_key request = "unknown")
  /\ (forall request2 maxRequests2 windowMs2 now2,
        unidentified request -> unidentified request2 ->
        let out2 :=
          rateLimitMiddleware request2 maxRequests2 windowMs2 now2 out.2 in
        exists e1,
          entry out.2 "unknown" = Some e1
          /\ entry out2.2 "unknown" = Some (counted now2 windowMs2 (Some e1))
          /\ (now2 <= resetTime e1 ->
              entry out2.2 "unknown"
              = Some (mkRateLimitData (count e1 + 1) (resetTime e1)))).
Proof.
  assert (Hkey : forall r, unidentified r -> client_key r = "unknown").
  { intros [[s|]] [H|H]; simpl in H; try done. by injection H as ->. }
  simpl. split; [|split; [|split]].
  - rewrite result_of_call. unfold Accepted, Rejected.
    case_decide; [right|left]; eauto.
  - unfold Accepted, Rejected. intros [-> (resp & H & _)]. done.
  - apply Hkey.
  - intros request2 maxRequests2 windowMs2 now2 H1 H2.
    pose proof (entry_after_call request maxRequests windowMs now st) as He1.
    pose proof (entry_after_call request2 maxRequests2 windowMs2 now2
                  (rateLimitMiddleware request maxRequests windowMs now st).2)
      as He2.
    rewrite (Hkey _ H1) in He1. rewrite (Hkey _ H2), He1 in He2.
    eexists. split; [exact He1|]. split; [exact He2|].
    intros Hw. by rewrite He2, counted_in_window.
Qed.

Lemma C9_total_unknown_shared_witness :
  let out := rateLimitMiddleware (mkNextRequest None) 5 60000 1000 init in
  let out2 := rateLimitMiddleware (mkNextRequest (Some "")) 5 60000 1500 out.2 in
  Accepted out.1
  /\ entry out.2 "unknown" = Some (mkRateLimitData 1 61000)
  /\ entry out2.2 "unknown" = Some (mkRateLimitData 2 61000).
Proof.
  destruct (C9_total_unknown_shared (mkNextRequest None) 5 60000 1000 init)
    as (_ & _ & _ & Hshared).
  destruct (Hshared (mkNextRequest (Some "")) 5 60000 1500)
    as (e1 & He1 & _ & He2);
    [by left|by right|].
  split; [reflexivity|]. split; [reflexivity|].
  assert (e1 = mkRateLimitData 1 61000) as -> by (vm_compute in He1; congruence).
  apply He2. simpl. lia.
Defined.

(** ** Write-through *)

(** With [maxRequests = 0] the call that finds the window elapsed is
    rejected too, after it has reset the entry: this rejected call neither
    adds one to the stored count nor keeps [resetTime]. *)
Lemma C10_rejected_call_resets :
  let k := client_key client in
  let out := rateLimitMiddleware client 0 60000 61500 always_rejecting in
  reachable always_rejecting
  /\ Rejected out.1
  /\ exists e e',
       entry always_rejecting k = Some e
       /\ entry out.2 k = Some e'
       /\ count e' <> count e + 1
       /\ resetTime e' <> resetTime e.
Proof.
  split; [apply reachable_run, reachable_init|].
  split; [eexists; split; reflexivity|].
  exists (mkRateLimitData 1 61000), (mkRateLimitData 1 121500).
  repeat split; simpl; lia.
Qed.

(** C10.  In every reachable store a call leaves an entry for its client
    with [count >= 1] and, for [windowMs > 0], [resetTime >= now]; it
    removes no key.  For [maxRequests >= 1] a rejected call found an entry,
    added one to its count and kept its [resetTime]; any call within the
    window does so, admitted or rejected, so the count of a client grows by
    one with each call of a window, past [maxRequests + 1] too. *)
Theorem C10_write_through request maxRequests windowMs now st :
  reachable st ->
  let k := client_key request in
  let out := rateLimitMiddleware request maxRequests windowMs now st in
  (exists e',
     entry out.2 k = Some e'
     /\ 1 <= count e'
     /\ (0 < windowMs -> resetTime e' >= now)
     /\ (1 <= maxRequests -> Rejected out.1 ->
         exists e, entry st k = Some e
           /\ count e' = count e + 1 /\ resetTime e' = resetTime e)
     /\ (forall e, entry st k = Some e -> now <= resetTime e ->
           count e' = count e + 1 /\ resetTime e' = resetTime e))
  /\ (forall k', is_Some (entry st k') -> is_Some (entry out.2 k'))
  /\ (forall calls e,
        Forall (fun call => client_key call.1 = k) calls ->
        entry st k = Some e ->
        within_window maxRequests windowMs calls st = true ->
        entry (run maxRequests windowMs calls st).2 k
        = Some (mkRateLimitData (count e + Z.of_nat (length calls))
                  (resetTime e))).
Proof.
  intros Hst k out. split; [|split].
  - exists (counted now windowMs (entry st k)).
    split; [apply entry_after_call|].
    split.
    { apply (reachable_count out.2 k); [by constructor|apply entry_after_call]. }
    split.
    { intros Hw.
      pose proof (counted_resetTime_ge now windowMs (entry st k)). lia. }
    split.
    + intros Hmax (resp & Hresp & _). subst out.
      rewrite result_of_call in Hresp. fold k in Hresp.
      case_decide as Hc; [|done]. revert Hc.
      unfold counted, observed.
      destruct (entry st k) as [e|]; simpl; case_decide; simpl; try lia.
      intros _. by exists e.
    + intros e -> Hw. by rewrite counted_in_window.
  - intros k' [e He].
    destruct (rateLimitMiddleware_spec request maxRequests windowMs now st)
      as (_ & Hmap & _).
    unfold entry in *. fold out in Hmap. rewrite Hmap, lookup_insert.
    case_decide; [by eexists|].
    destruct (ipRequestMap st !! k'); [by eexists|done].
  - intros calls e Hk He Hw. by apply run_in_window.
Qed.

Lemma C10_write_through_witness :
  let out := rateLimitMiddleware client 5 60000 1500 five_calls in
  reachable five_calls
  /\ Rejected out.1
  /\ entry out.2 (client_key client) = Some (mkRateLimitData 6 61000)
  /\ entry (run 5 60000 (repeat (client, 2000) 3) five_calls).2
       (client_key client)
     = Some (mkRateLimitData 8 61000).
Proof.
  assert (Hreach : reachable five_calls)
    by apply reachable_run, reachable_init.
  destruct (C10_write_through client 5 60000 1500 five_calls Hreach)
    as ((e' & He' & _) & _ & Hgrow).
  split; [exact Hreach|].
  split; [eexists; split; reflexivity|].
  split; [reflexivity|].
  apply (Hgrow (repeat (client, 2000) 3) (mkRateLimitData 5 61000));
    [repeat constructor|reflexivity|reflexivity].
Defined.

(** * Further properties of the middleware *)

(** ** The registry as a map of values *)

Lemma registry_lookup st k : registry st !! k = entry st k.
Proof. unfold registry, entry. apply lookup_fmap. Qed.

(** X1.  In a reachable store one call acts on the map of entries as a
    single insertion at its own key: the entry found there (or none),
    counted once. *)
Theorem X1_registry_insert request maxRequests windowMs now st :
  reachable st ->
  let k := client_key request in
  registry (rateLimitMiddleware request maxRequests windowMs now st).2
  = <[k := counted now windowMs (registry st !! k)]> (registry st).
Proof.
  intros Hst k. apply map_eq. intros i.
  rewrite lookup_insert, !registry_lookup.
  case_decide as Hi.
  - subst i. apply entry_after_call.
  - apply call_frame; [by apply reachable_wf|done].
Qed.

Lemma X1_registry_insert_witness :
  let request := req "5.6.7.8" in
  reachable five_calls
  /\ registry (rateLimitMiddleware request 5 60000 2000 five_calls).2
     = <[ client_key request
            := counted 2000 60000 (registry five_calls !! client_key request) ]>
         (registry five_calls).
Proof.
  assert (Hreach : reachable five_calls)
    by apply reachable_run, reachable_init.
  split; [exact Hreach|].
  apply (X1_registry_insert (req "5.6.7.8") 5 60000 2000 five_calls Hreach).
Defined.

(** ** Keys and objects *)

Lemma dom_after_call request maxRequests windowMs now st :
  dom (ipRequestMap (rateLimitMiddleware request maxRequests windowMs now st).2)
  = {[ client_key request ]} ∪ dom (ipRequestMap st).
Proof.
  destruct (rateLimitMiddleware_spec request maxRequests windowMs now st)
    as (_ & -> & _). apply dom_insert_L.
Qed.

(** X2.  After a sequence of calls the map holds exactly the keys it held
    before and the keys the calls were served under: a key is added the
    first time a client is seen and none is ever dropped. *)
Theorem X2_keys_after_run maxRequests windowMs calls st :
  dom (ipRequestMap (run maxRequests windowMs calls st).2)
  = dom (ipRequestMap st) ∪ keys_of calls.
Proof.
  revert st. unfold keys_of.
  induction calls as [|[request now] calls IH]; intros st.
  - simpl. by rewrite union_empty_r_L.
  - rewrite run_cons. simpl. rewrite IH, dom_after_call.
    by rewrite (comm_L (∪) {[client_key request]}), <- (assoc_L (∪)).
Qed.

(** X3.  In a reachable store there are as many objects as keys: the
    object literal of line 45 is built only for a key the map does not
    hold, and then stored under it. *)
Theorem X3_one_object_per_key st :
  reachable st -> next st = size (ipRequestMap st).
Proof.
  induction 1 as [|st request maxRequests windowMs now Hst IH]; [done|].
  destruct (rateLimitMiddleware_spec request maxRequests windowMs now st)
    as (_ & -> & _ & ->).
  unfold ipData_ref.
  destruct (ipRequestMap st !! client_key request) as [r|] eqn:Hk; simpl.
  - rewrite map_size_insert_Some; [done|by eexists].
  - rewrite map_size_insert_None by done. by rewrite IH.
Qed.

Lemma X3_one_object_per_key_witness :
  reachable two_clients
  /\ next two_clients = size (ipRequestMap two_clients)
  /\ next two_clients = 2%nat.
Proof.
  assert (Hreach : reachable two_clients)
    by (unfold two_clients, five_calls;
        apply reachable_run, reachable_run, reachable_init).
  split; [exact Hreach|].
  split; [apply (X3_one_object_per_key two_clients Hreach)|reflexivity].
Defined.

Lemma client_key_nonempty request : client_key request ≠ "".
Proof.
  unfold client_key. destruct (ip request) as [s|]; [|done].
  by case_decide.
Qed.

(** X4.  No reachable store has an entry under the empty key: a request
    whose [ip] is the empty string is counted under ["unknown"]. *)
Theorem X4_no_empty_key st :
  reachable st -> entry st "" = None.
Proof.
  induction 1 as [|st request maxRequests windowMs now Hst IH].
  - unfold entry. simpl. by rewrite lookup_empty.
  - destruct (call_frame request maxRequests windowMs now st "") as [_ ->];
      [by apply reachable_wf|apply client_key_nonempty|done].
Qed.

Lemma X4_no_empty_key_witness :
  let st := (rateLimitMiddleware (req "") 5 60000 1000 init).2 in
  reachable st
  /\ entry st "" = None
  /\ entry st "unknown" = Some (mkRateLimitData 1 61000).
Proof.
  assert (Hreach :
    reachable (rateLimitMiddleware (req "") 5 60000 1000 init).2)
    by apply reachable_call, reachable_init.
  split; [exact Hreach|].
  split; [apply (X4_no_empty_key _ Hreach)|reflexivity].
Defined.

(** ** The quota of one window *)

(** The decision of line 58, read from the count the call stored. *)
Lemma decision_cases maxRequests c rt now :
  let r := if decide (c > maxRequests)
           then Some (too_many_requests maxRequests rt now) else None in
  (Accepted r <-> c <= maxRequests) /\ (Rejected r <-> c > maxRequests)
  /\ accepted r = bool_decide (c <= maxRequests).
Proof.
  simpl. unfold Accepted, Rejected. case_decide; simpl.
  - rewrite bool_decide_eq_false_2 by lia. repeat split; try done; try lia.
    intros _. eauto.
  - rewrite bool_decide_eq_true_2 by lia. repeat split; try done; try lia.
    intros (resp & ? & _). done.
Qed.

(** X5.  Within one window the calls of a client are decided by their
    position alone: the call that brings the stored count to [c] is let
    through when [c <= maxRequests] and rejected otherwise, so once a call
    is rejected every later call of the window is. *)
Theorem X5_window_pattern k maxRequests windowMs calls st e :
  Forall (fun call => client_key call.1 = k) calls ->
  entry st k = Some e ->
  within_window maxRequests windowMs calls st = true ->
  forall i r,
    (run maxRequests windowMs calls st).1 !! i = Some r ->
    (Accepted r <-> count e + Z.of_nat i + 1 <= maxRequests)
    /\ (Rejected r <-> count e + Z.of_nat i + 1 > maxRequests).
Proof.
  revert st e.
  induction calls as [|[request now] calls IH]; intros st e Hk He Hw i r.
  - done.
  - apply Forall_cons in Hk as [Hk1 Hk]. simpl in Hk1.
    simpl in Hw. apply andb_prop in Hw as [Hw1 Hw].
    unfold in_window in Hw1. rewrite Hk1, He in Hw1.
    apply bool_decide_eq_true in Hw1.
    rewrite run_cons. simpl.
    destruct i as [|i]; simpl.
    + intros [= <-]. rewrite result_of_call, Hk1, He, counted_in_window by done.
      simpl.
      destruct (decision_cases maxRequests (count e + 1) (resetTime e) now)
        as (Ha & Hr & _).
      split; [rewrite Ha|rewrite Hr]; lia.
    + intros Hr.
      assert (He' :
        entry (rateLimitMiddleware request maxRequests windowMs now st).2 k
        = Some (mkRateLimitData (count e + 1) (resetTime e))).
      { rewrite <- Hk1 at 1. rewrite entry_after_call, Hk1, He.
        by rewrite counted_in_window. }
      destruct (IH _ _ Hk He' Hw i r Hr) as [Ha Hj].
      simpl in Ha, Hj. split; [rewrite Ha|rewrite Hj]; lia.
Qed.

Lemma X5_window_pattern_witness :
  let results := (run 5 60000 (repeat (client, 1500) 3) five_calls).1 in
  results !! 1%nat = Some (Some sixth_response)
  /\ Rejected (Some sixth_response).
Proof.
  split; [reflexivity|].
  destruct (X5_window_pattern "1.2.3.4" 5 60000 (repeat (client, 1500) 3)
              five_calls (mkRateLimitData 5 61000)) with 1%nat
              (Some sixth_response) as [_ Hrej];
    [repeat constructor|reflexivity|reflexivity|reflexivity|].
  apply Hrej. simpl. lia.
Defined.

Lemma accepted_count_cons r results :
  accepted_count (r :: results)
  = ((if accepted r then 1 else 0) + accepted_count results)%nat.
Proof. unfold accepted_count. simpl. by destruct (accepted r). Qed.

Lemma accepted_count_in_window k maxRequests windowMs calls : forall st e,
  Forall (fun call => client_key call.1 = k) calls ->
  entry st k = Some e ->
  within_window maxRequests windowMs calls st = true ->
  Z.of_nat (accepted_count (run maxRequests windowMs calls st).1)
  = Z.min (Z.of_nat (length calls)) (Z.max 0 (maxRequests - count e)).
Proof.
  induction calls as [|[request now] calls IH]; intros st e Hk He Hw.
  - simpl. unfold accepted_count. simpl. lia.
  - apply Forall_cons in Hk as [Hk1 Hk]. simpl in Hk1.
    simpl in Hw. apply andb_prop in Hw as [Hw1 Hw].
    unfold in_window in Hw1. rewrite Hk1, He in Hw1.
    apply bool_decide_eq_true in Hw1.
    assert (He' :
      entry (rateLimitMiddleware request maxRequests windowMs now st).2 k
      = Some (mkRateLimitData (count e + 1) (resetTime e))).
    { rewrite <- Hk1 at 1. rewrite entry_after_call, Hk1, He.
      by rewrite counted_in_window. }
    rewrite run_cons. simpl. rewrite accepted_count_cons, Nat2Z.inj_add.
    rewrite (IH _ _ Hk He' Hw). simpl.
    rewrite result_of_call, Hk1, He, counted_in_window by done. simpl.
    destruct (decision_cases maxRequests (count e + 1) (resetTime e) now)
      as (_ & _ & ->).
    case_bool_decide; lia.
Qed.

(** X6.  Of [n] calls a client makes within one window, exactly
    [min n (max 0 (maxRequests - c))] are let through, [c] being the count
    stored when the first of them arrives (0 for a client without entry):
    a window never lets through more than [maxRequests] calls. *)
Theorem X6_window_quota k maxRequests windowMs calls st :
  Forall (fun call => client_key call.1 = k) calls ->
  within_window maxRequests windowMs calls st = true ->
  let c := match entry st k with Some e => count e | None => 0 end in
  Z.of_nat (accepted_count (run maxRequests windowMs calls st).1)
  = Z.min (Z.of_nat (length calls)) (Z.max 0 (maxRequests - c)).
Proof.
  intros Hk Hw. simpl.
  destruct (entry st k) as [e|] eqn:He.
  - by apply (accepted_count_in_window k).
  - destruct calls as [|[request now] calls].
    + unfold accepted_count. simpl. lia.
    + apply Forall_cons in Hk as [Hk1 Hk]. simpl in Hk1.
      simpl in Hw. apply andb_prop in Hw as [_ Hw].
      destruct (counted_fresh now windowMs) as [Hfresh _].
      assert (He' :
        entry (rateLimitMiddleware request maxRequests windowMs now st).2 k
        = Some (mkRateLimitData (0 + 1) (now + windowMs))).
      { rewrite <- Hk1 at 1. by rewrite entry_after_call, Hk1, He, Hfresh. }
      rewrite run_cons. simpl. rewrite accepted_count_cons, Nat2Z.inj_add.
      rewrite (accepted_count_in_window k _ _ _ _ _ Hk He' Hw). simpl.
      rewrite result_of_call, Hk1, He, Hfresh. simpl.
      destruct (decision_cases maxRequests (0 + 1) (now + windowMs) now)
        as (_ & _ & ->).
      case_bool_decide; lia.
Qed.

Lemma X6_window_quota_witness :
  let calls := repeat (client, 1000) 8 in
  Z.of_nat (accepted_count (run 5 60000 calls init).1)
  = Z.min (Z.of_nat (length calls)) (Z.max 0 (5 - 0))
  /\ accepted_count (run 5 60000 calls init).1 = 5%nat.
Proof.
  split; [|reflexivity].
  apply (X6_window_quota "1.2.3.4" 5 60000 (repeat (client, 1000) 8) init);
    [repeat constructor|reflexivity].
Defined.

(** X7.  With [maxRequests <= 0] the middleware lets nothing through:
    every call in a reachable store is rejected. *)
Theorem X7_nonpositive_limit_rejects request maxRequests windowMs now st :
  reachable st ->
  maxRequests <= 0 ->
  Rejected (rateLimitMiddleware request maxRequests windowMs now st).1.
Proof.
  intros Hst Hmax.
  pose proof (reachable_count
                (rateLimitMiddleware request maxRequests windowMs now st).2
                (client_key request) _
                (reachable_call _ request maxRequests windowMs now Hst)
                (entry_after_call request maxRequests windowMs now st)) as Hc.
  rewrite result_of_call. simpl.
  rewrite decide_True by lia. eexists. by split.
Qed.

Lemma X7_nonpositive_limit_rejects_witness :
  reachable init /\ Rejected (rateLimitMiddleware client 0 60000 1000 init).1.
Proof.
  split; [apply reachable_init|].
  apply (X7_nonpositive_limit_rejects client 0 60000 1000 init);
    [apply reachable_init|lia].
Defined.

(** ** Bursts across the end of a window *)

Lemma run_app maxRequests windowMs calls1 calls2 : forall st,
  let first := run maxRequests windowMs calls1 st in
  let second := run maxRequests windowMs calls2 first.2 in
  run maxRequests windowMs (calls1 ++ calls2) st
  = (first.1 ++ second.1, second.2).
Proof.
  induction calls1 as [|[request now] calls1 IH]; intros st.
  - simpl. by destruct (run _ _ calls2 st).
  - simpl app. rewrite !run_cons. simpl. by rewrite IH.
Qed.

Lemma run_app_results maxRequests windowMs calls1 calls2 st :
  (run maxRequests windowMs (calls1 ++ calls2) st).1
  = (run maxRequests windowMs calls1 st).1
    ++ (run maxRequests windowMs calls2
          (run maxRequests windowMs calls1 st).2).1.
Proof. by rewrite run_app. Qed.

Lemma run_cons_results maxRequests windowMs request now calls st :
  (run maxRequests windowMs ((request, now) :: calls) st).1
  = (rateLimitMiddleware request maxRequests windowMs now st).1
    :: (run maxRequests windowMs calls
          (rateLimitMiddleware request maxRequests windowMs now st).2).1.
Proof. by rewrite run_cons. Qed.

Lemma run_cons_store maxRequests windowMs request now calls st :
  (run maxRequests windowMs ((request, now) :: calls) st).2
  = (run maxRequests windowMs calls
       (rateLimitMiddleware request maxRequests windowMs now st).2).2.
Proof. by rewrite run_cons. Qed.

Lemma within_window_repeat request maxRequests windowMs t m : forall st e,
  entry st (client_key request) = Some e ->
  t <= resetTime e ->
  within_window maxRequests windowMs (repeat (request, t) m) st = true.
Proof.
  induction m as [|m IH]; intros st e He Ht; [done|].
  simpl. unfold in_window. rewrite He, bool_decide_eq_true_2 by done. simpl.
  apply (IH _ (mkRateLimitData (count e + 1) (resetTime e))); [|done].
  by rewrite entry_after_call, He, counted_in_window.
Qed.

Lemma Forall_repeat_key request t m :
  Forall (fun call : NextRequest * Z => client_key call.1 = client_key request)
    (repeat (request, t) m).
Proof. induction m; simpl; by constructor. Qed.

(** X8.  The window is fixed, not sliding: for a client without entry and
    a limit [n >= 1], the [2 n] calls of a burst across the end of the
    window (one at [t0], [n - 1] at [t0 + windowMs] and [n] one
    millisecond later) are all let through. *)
Theorem X8_boundary_burst request windowMs t0 (n : nat) st :
  entry st (client_key request) = None ->
  (1 <= n)%nat ->
  let calls := boundary_burst request t0 windowMs n in
  length calls = (2 * n)%nat
  /\ Forall Accepted (run (Z.of_nat n) windowMs calls st).1.
Proof.
  intros Hnone Hn. set (k := client_key request).
  unfold boundary_burst. split.
  { simpl. rewrite length_app, !repeat_length. lia. }
  rewrite app_comm_cons, run_app_results.
  set (opening := (request, t0) :: repeat (request, t0 + windowMs) (n - 1)).
  assert (Hkeys : Forall (fun call : NextRequest * Z => client_key call.1 = k)
                    opening).
  { constructor; [done|apply Forall_repeat_key]. }
  assert (Hlen : length opening = n).
  { unfold opening. simpl. rewrite repeat_length. lia. }
  apply Forall_app. split.
  - apply (run_accepted k _ _ _ _ 0); [done|lia| |lia].
    fold k in Hnone. intros e. by rewrite Hnone.
  - (* the entry the opening calls leave: count n, the window of t0 *)
    assert (Hentry :
      entry (run (Z.of_nat n) windowMs opening st).2 k
      = Some (mkRateLimitData (Z.of_nat n) (t0 + windowMs))).
    { unfold opening. rewrite run_cons_store.
      destruct (counted_fresh t0 windowMs) as [Hfresh _].
      assert (He1 :
        entry (rateLimitMiddleware request (Z.of_nat n) windowMs t0 st).2 k
        = Some (mkRateLimitData (0 + 1) (t0 + windowMs))).
      { unfold k. by rewrite entry_after_call, Hnone, Hfresh. }
      rewrite (run_in_window k _ _ _ _ _ (Forall_repeat_key _ _ _) He1).
      - simpl. rewrite repeat_length. do 2 f_equal. lia.
      - apply (within_window_repeat _ _ _ _ _ _ _ He1). simpl. lia. }
    destruct n as [|m]; [lia|]. simpl repeat. rewrite run_cons_results.
    set (st1 := (run (Z.of_nat (S m)) windowMs opening st).2) in *.
    assert (He2 :
      entry (rateLimitMiddleware request (Z.of_nat (S m)) windowMs
               (t0 + windowMs + 1) st1).2 k
      = Some (mkRateLimitData (0 + 1) (t0 + windowMs + 1 + windowMs))).
    { unfold k. rewrite entry_after_call. fold k. rewrite Hentry.
      rewrite counted_reset; [done|simpl; lia]. }
    constructor.
    + unfold Accepted. rewrite result_of_call. fold k. rewrite Hentry.
      rewrite counted_reset by (simpl; lia). simpl.
      rewrite decide_False; [done|lia].
    + apply (run_accepted k _ _ _ _ 1);
        [apply Forall_repeat_key|lia| |rewrite repeat_length; lia].
      intros e. rewrite He2. intros [= <-]. simpl. lia.
Qed.

Lemma X8_boundary_burst_witness :
  let calls := boundary_burst client 1000 60000 5 in
  length calls = 10%nat
  /\ Forall Accepted (run 5 60000 calls init).1
  /\ (run 5 60000 calls init).1 = repeat None 10.
Proof.
  destruct (X8_boundary_burst client 60000 1000 5 init) as [Hlen Hall];
    [reflexivity|lia|].
  split; [exact Hlen|]. split; [exact Hall|reflexivity].
Defined.

(** ** Clients in interleaved sequences *)

(** Two stores that agree on the entry of the request's key give the same
    result and the same entry afterwards. *)
Lemma call_local request maxRequests windowMs now st1 st2 :
  entry st1 (client_key request) = entry st2 (client_key request) ->
  (rateLimitMiddleware request maxRequests windowMs now st1).1
  = (rateLimitMiddleware request maxRequests windowMs now st2).1
  /\ entry (rateLimitMiddleware request maxRequests windowMs now st1).2
       (client_key request)
     = entry (rateLimitMiddleware request maxRequests windowMs now st2).2
         (client_key request).
Proof. intros H. by rewrite !result_of_call, !entry_after_call, H. Qed.

Lemma run_isolated k maxRequests windowMs calls : forall st1 st2,
  wf st1 ->
  entry st1 k = entry st2 k ->
  results_of k calls (run maxRequests windowMs calls st1).1
  = (run maxRequests windowMs (calls_of k calls) st2).1
  /\ entry (run maxRequests windowMs calls st1).2 k
     = entry (run maxRequests windowMs (calls_of k calls) st2).2 k.
Proof.
  unfold results_of, calls_of.
  induction calls as [|[request now] calls IH]; intros st1 st2 Hwf Hst.
  - done.
  - rewrite run_cons_results, run_cons_store. simpl zip.
    rewrite !filter_cons. simpl.
    case_decide as Hk.
    + subst k.
      destruct (call_local request maxRequests windowMs now st1 st2 Hst)
        as [Hres Hent].
      rewrite run_cons_results, run_cons_store. simpl.
      destruct (IH _ _ (wf_call request maxRequests windowMs now _ Hwf) Hent)
        as [Hrest Hlast].
      split; [|exact Hlast].
      f_equal; [exact Hres|exact Hrest].
    + apply IH; [by apply wf_call|].
      destruct (call_frame request maxRequests windowMs now st1 k Hwf Hk)
        as [_ ->]. done.
Qed.

(** X9.  The calls of other clients, however interleaved, change nothing
    for a client: in a sequence started in a reachable store its calls get
    the results, and leave the entry, they would get and leave had the
    other calls not been made. *)
Theorem X9_clients_isolated k maxRequests windowMs calls st :
  reachable st ->
  results_of k calls (run maxRequests windowMs calls st).1
  = (run maxRequests windowMs (calls_of k calls) st).1
  /\ entry (run maxRequests windowMs calls st).2 k
     = entry (run maxRequests windowMs (calls_of k calls) st).2 k.
Proof.
  intros Hst. apply run_isolated; [by apply reachable_wf|done].
Qed.

Lemma X9_clients_isolated_witness :
  let calls :=
    [(client, 1000); (req "5.6.7.8", 1100); (client, 1200);
     (mkNextRequest None, 1300); (client, 1400)] in
  calls_of "1.2.3.4" calls = [(client, 1000); (client, 1200); (client, 1400)]
  /\ results_of "1.2.3.4" calls (run 2 60000 calls init).1
     = (run 2 60000 (calls_of "1.2.3.4" calls) init).1
  /\ entry (run 2 60000 calls init).2 "1.2.3.4"
     = entry (run 2 60000 (calls_of "1.2.3.4" calls) init).2 "1.2.3.4".
Proof.
  split; [reflexivity|].
  apply (X9_clients_isolated "1.2.3.4" 2 60000 _ init), reachable_init.
Defined.

(** ** Bounds on [Retry-After] under a clock that does not run backwards *)

Lemma Math_ceil_div_mono x y d :
  0 < d -> x <= y -> Math_ceil_div x d <= Math_ceil_div y d.
Proof.
  intros Hd Hxy. unfold Math_ceil_div.
  pose proof (Z.div_le_mono (- y) (- x) d Hd ltac:(lia)). lia.
Qed.

Lemma counted_resetTime_le now windowMs o :
  (forall e, o = Some e -> resetTime e <= now + windowMs) ->
  resetTime (counted now windowMs o) <= now + windowMs.
Proof.
  intros Ho. unfold counted, observed.
  destruct o as [e|]; simpl; case_decide; simpl; try lia.
  by apply Ho.
Qed.

Lemma expires_by_init T windowMs : expires_by T windowMs init.
Proof. intros k e. unfold entry. simpl. by rewrite lookup_empty. Qed.

Lemma expires_by_call request maxRequests windowMs now T st :
  wf st -> expires_by T windowMs st -> T <= now ->
  expires_by now windowMs
    (rateLimitMiddleware request maxRequests windowMs now st).2.
Proof.
  intros Hwf Hexp HT k e.
  destruct (decide (client_key request = k)) as [<-|Hne].
  - rewrite entry_after_call. intros [= <-].
    apply counted_resetTime_le. intros e He. apply Hexp in He. lia.
  - destruct (call_frame request maxRequests windowMs now st k Hwf Hne)
      as [_ ->]. intros He. apply Hexp in He. lia.
Qed.

Lemma retry_after_bounded maxRequests windowMs calls : forall T st,
  0 <= windowMs ->
  wf st -> expires_by T windowMs st ->
  clock_monotone T calls = true ->
  forall i resp,
    (run maxRequests windowMs calls st).1 !! i = Some (Some resp) ->
    exists N, header "Retry-After" resp = Some (toString N)
      /\ 0 <= N <= Math_ceil_div windowMs 1000.
Proof.
  induction calls as [|[request now] calls IH];
    intros T st Hw Hwf Hexp Hclock i resp; [done|].
  simpl in Hclock. apply andb_prop in Hclock as [HT Hclock].
  apply bool_decide_eq_true in HT.
  rewrite run_cons_results.
  destruct i as [|i]; simpl.
  - intros [= Hresp].
    destruct (response_of_call _ _ _ _ _ _ Hresp) as (e' & _ & He' & _ & ->).
    exists (Math_ceil_div (resetTime e' - now) 1000). split; [done|].
    pose proof (counted_resetTime_ge now windowMs
                  (entry st (client_key request)) Hw).
    assert (resetTime e' <= now + windowMs).
    { subst e'. apply counted_resetTime_le.
      intros e He. apply Hexp in He. lia. }
    split.
    + apply Math_ceil_div_nonneg; [lia|]. subst e'. lia.
    + apply Math_ceil_div_mono; lia.
  - apply (IH now); [done|by apply wf_call| |done].
    by apply (expires_by_call _ _ _ _ T).
Qed.

(** X10.  When the clock does not run backwards and [windowMs >= 0],
    every rejection in a sequence of calls from the initial store carries a
    [Retry-After] between 0 and [ceil(windowMs / 1000)] seconds. *)
Theorem X10_retry_after_bounded maxRequests windowMs T calls :
  0 <= windowMs ->
  clock_monotone T calls = true ->
  forall i resp,
    (run maxRequests windowMs calls init).1 !! i = Some (Some resp) ->
    exists N, header "Retry-After" resp = Some (toString N)
      /\ 0 <= N <= Math_ceil_div windowMs 1000.
Proof.
  intros Hw Hclock.
  apply (retry_after_bounded _ _ _ T); [done|apply wf_init| |done].
  apply expires_by_init.
Qed.

Lemma X10_retry_after_bounded_witness :
  let calls := repeat (client, 1000) 5 ++ [(client, 1500)] in
  (run 5 60000 calls init).1 !! 5%nat = Some (Some sixth_response)
  /\ exists N, header "Retry-After" sixth_response = Some (toString N)
       /\ 0 <= N <= Math_ceil_div 60000 1000.
Proof.
  split; [reflexivity|].
  apply (X10_retry_after_bounded 5 60000 0
           (repeat (client, 1000) 5 ++ [(client, 1500)])) with 5%nat;
    [lia|reflexivity|reflexivity].
Defined.

Lemma negative_window_accepts maxRequests windowMs calls : forall T st,
  windowMs < 0 -> 1 <= maxRequests ->
  wf st -> expires_by T windowMs st ->
  clock_monotone T calls = true ->
  Forall Accepted (run maxRequests windowMs calls st).1.
Proof.
  induction calls as [|[request now] calls IH];
    intros T st Hw Hmax Hwf Hexp Hclock; [constructor|].
  simpl in Hclock. apply andb_prop in Hclock as [HT Hclock].
  apply bool_decide_eq_true in HT.
  rewrite run_cons_results. constructor.
  - unfold Accepted. rewrite result_of_call. simpl.
    rewrite decide_False; [done|].
    unfold counted, observed.
    destruct (entry st (client_key request)) as [e|] eqn:He; simpl.
    + apply Hexp in He. rewrite decide_True by lia. simpl. lia.
    + rewrite decide_True by lia. simpl. lia.
  - apply (IH now); [done|done|by apply wf_call| |done].
    by apply (expires_by_call _ _ _ _ T).
Qed.

(** For a negative [windowMs], a call no earlier than [T] finds every
    window that expires by [T + windowMs] elapsed, and the absent entry
    too: it counts from zero. *)
Lemma counted_elapsed T now windowMs o :
  windowMs < 0 -> T <= now ->
  (forall e, o = Some e -> resetTime e <= T + windowMs) ->
  (forall e, o = Some e -> now > resetTime e)
  /\ counted now windowMs o = mkRateLimitData 1 (now + windowMs).
Proof.
  intros Hw HT Ho. split.
  - intros e He. apply Ho in He. lia.
  - unfold counted, observed. destruct o as [e|]; simpl.
    + specialize (Ho e eq_refl). by rewrite decide_True by lia.
    + by rewrite decide_True by lia.
Qed.

(** The store a call of the sequence finds has no entry that expires
    later than [windowMs] after some clock value not after the call. *)
Lemma expires_by_prefix maxRequests windowMs before request now after :
  forall T st,
  wf st -> expires_by T windowMs st ->
  clock_monotone T (before ++ (request, now) :: after) = true ->
  exists T', T' <= now
    /\ expires_by T' windowMs (run maxRequests windowMs before st).2.
Proof.
  induction before as [|[request1 now1] before IH];
    intros T st Hwf Hexp Hclock; simpl in Hclock;
    apply andb_prop in Hclock as [HT Hclock];
    apply bool_decide_eq_true in HT.
  - exists T. by split.
  - rewrite run_cons_store. apply (IH now1); [by apply wf_call| |done].
    by apply (expires_by_call _ _ _ _ T).
Qed.

(** X11.  With a negative [windowMs] the middleware limits nothing: when
    the clock does not run backwards and [maxRequests >= 1], every call of
    a sequence from the initial store is let through, and each of them
    finds the window of its client elapsed (or no entry) and leaves the
    entry reset: [{count: 1, resetTime: now + windowMs}]. *)
Theorem X11_negative_window_accepts maxRequests windowMs T calls :
  windowMs < 0 ->
  1 <= maxRequests ->
  clock_monotone T calls = true ->
  Forall Accepted (run maxRequests windowMs calls init).1
  /\ forall before request now after,
       calls = before ++ (request, now) :: after ->
       let k := client_key request in
       let st := (run maxRequests windowMs before init).2 in
       let out := rateLimitMiddleware request maxRequests windowMs now st in
       (forall e, entry st k = Some e -> now > resetTime e)
       /\ Accepted out.1
       /\ entry out.2 k = Some (mkRateLimitData 1 (now + windowMs)).
Proof.
  intros Hw Hmax Hclock. split.
  - apply (negative_window_accepts _ _ _ T);
      [done|done|apply wf_init|apply expires_by_init|done].
  - intros before request now after ->. simpl.
    destruct (expires_by_prefix maxRequests windowMs before request now after
                T init wf_init (expires_by_init T windowMs) Hclock)
      as (T' & HT' & Hexp).
    destruct (counted_elapsed T' now windowMs
                (entry (run maxRequests windowMs before init).2
                   (client_key request)) Hw HT') as [Helapsed Hcounted].
    { intros e He. by apply Hexp in He. }
    split; [exact Helapsed|].
    rewrite entry_after_call, result_of_call, Hcounted. simpl.
    split; [|done]. unfold Accepted. rewrite decide_False; [done|lia].
Qed.

Lemma X11_negative_window_accepts_witness :
  let calls := repeat (client, 1000) 8 in
  let st := (run 1 (-1) (repeat (client, 1000) 3) init).2 in
  (run 1 (-1) calls init).1 = repeat None 8
  /\ entry st "1.2.3.4" = Some (mkRateLimitData 1 999)
  /\ entry (rateLimitMiddleware client 1 (-1) 1000 st).2 (client_key client)
     = Some (mkRateLimitData 1 (1000 + -1)).
Proof.
  split; [reflexivity|]. split; [reflexivity|].
  destruct (X11_negative_window_accepts 1 (-1) 0 (repeat (client, 1000) 8))
    as [_ Heach]; [lia|lia|reflexivity|].
  destruct (Heach (repeat (client, 1000) 3) client 1000
              (repeat (client, 1000) 4) eq_refl) as (_ & _ & Hentry).
  exact Hentry.
Defined.

(** ** Honouring [Retry-After] *)

(** X12.  A client that waits the [N] seconds of [Retry-After] and calls
    again is let through (for [maxRequests >= 1]) unless [1000 N] is the
    exact remainder of the window: it then arrives at [resetTime], which
    line 48 does not count as elapsed, and is rejected once more. *)
Theorem X12_retry_after_honoured request maxRequests windowMs now st resp :
  let k := client_key request in
  let out := rateLimitMiddleware request maxRequests windowMs now st in
  out.1 = Some resp ->
  exists e' N,
    entry out.2 k = Some e'
    /\ N = Math_ceil_div (resetTime e' - now) 1000
    /\ header "Retry-After" resp = Some (toString N)
    /\ let again :=
         rateLimitMiddleware request maxRequests windowMs (now + 1000 * N)
           out.2 in
       (1000 * N <> resetTime e' - now -> 1 <= maxRequests -> Accepted again.1)
       /\ (1000 * N = resetTime e' - now -> Rejected again.1).
Proof.
  intros k out Hout. subst k out.
  destruct (response_of_call _ _ _ _ _ _ Hout) as (e' & He' & _ & Hc & ->).
  exists e', (Math_ceil_div (resetTime e' - now) 1000).
  split; [done|]. split; [done|]. split; [done|].
  pose proof (Math_ceil_div_spec (resetTime e' - now) 1000 ltac:(lia)) as HN.
  simpl. rewrite result_of_call, He'.
  split.
  - intros Hne Hmax. unfold Accepted.
    rewrite counted_reset by lia. simpl.
    rewrite decide_False; [done|lia].
  - intros Heq. rewrite counted_in_window by lia. simpl.
    rewrite decide_True by lia. eexists. by split.
Qed.

Lemma X12_retry_after_honoured_witness :
  (rateLimitMiddleware client 5 60000 1500 five_calls).1 = Some sixth_response
  /\ Accepted
       (rateLimitMiddleware client 5 60000 (1500 + 1000 * 60)
          (rateLimitMiddleware client 5 60000 1500 five_calls).2).1
  /\ Rejected
       (rateLimitMiddleware client 5 60000 (1000 + 1000 * 60)
          (rateLimitMiddleware client 5 60000 1000 five_calls).2).1.
Proof.
  split; [reflexivity|].
  destruct (X12_retry_after_honoured client 5 60000 1500 five_calls
              sixth_response eq_refl) as (e1 & N1 & He1 & HN1 & _ & Hacc & _).
  destruct (X12_retry_after_honoured client 5 60000 1000 five_calls
              _ eq_refl) as (e2 & N2 & He2 & HN2 & _ & _ & Hrej).
  assert (e1 = mkRateLimitData 6 61000) by (vm_compute in He1; congruence).
  assert (e2 = mkRateLimitData 6 61000) by (vm_compute in He2; congruence).
  subst e1 e2. vm_compute in HN1, HN2. subst N1 N2.
  split; [apply Hacc; simpl; lia|apply Hrej; simpl; lia].
Defined.
